(** * KICKR Gears: the telemetry decoders of [kickr_gears.py]

    A shallow embedding of the two decoders of the program,
    [decode_gears] and [calc_grade], and the properties of them that the
    specification states.

    - A [bytearray] is a list of bytes; [data[i]] yields the byte's value
      as an integer and raises [IndexError] past the end.
    - [decode_gears] touches no global: it is a computation that returns
      or raises ([outcome]).
    - [calc_grade] reads and writes the module-level globals
      [current_lock_status] and [current_grade]: it is a computation in a
      state-and-exception monad ([M]) over the record [Globals]; a raise
      keeps the globals as they were at that point.
    - [int / 100.0] and the format [:.1f] are modelled exactly, on the
      IEEE 754 binary64 operations of [SpecFloat].
    - The two notification handlers, the grade loop of [process_queue],
      the choice of the device in [main] and the functions that load and
      save the configuration file follow, with the properties the code
      shows of them. *)

From Stdlib Require Import ZArith List String Ascii Lia Bool.
From Stdlib Require Import Strings.Byte.
From Stdlib Require Import DecimalString SpecFloat.
From Stdlib Require DecimalFacts DecimalZ.
Import ListNotations.

Local Open Scope string_scope.
Local Open Scope Z_scope.

(** ** Exceptions and outcomes *)

Inductive exn : Type :=
| IndexError.

Inductive outcome (A : Type) : Type :=
| Ok (a : A)
| Raise (e : exn).

Arguments Ok {A} a.
Arguments Raise {A} e.

(** ** Byte arrays *)

Definition bytearray : Type := list byte.

(** The integer a byte stands for, between 0 and 255. *)
Definition byte_val (b : byte) : Z := Z.of_N (Byte.to_N b).

(** [len(data)] *)
Definition len (data : bytearray) : Z := Z.of_nat (List.length data).

(** [data[i]] for a literal index [i]: the value of the byte, or
    [IndexError] when [i] is past the end. *)
Definition getitem (data : bytearray) (i : nat) : outcome Z :=
  match nth_error data i with
  | Some b => Ok (byte_val b)
  | None => Raise IndexError
  end.

(** ** Integers and floats as Python prints them *)

(** [str(n)] for an integer. *)
Definition str_int (n : Z) : string := NilZero.string_of_int (Z.to_int n).

Module Float.

(** binary64 *)
Definition prec : Z := 53.
Definition emax : Z := 1024.

(** The float of an integer (exact for the integers met here, which are
    below 2^53). *)
Definition of_int (n : Z) : spec_float := binary_normalize prec emax n 0 false.

(** [x / y] on floats. *)
Definition div (x y : spec_float) : spec_float := SFdiv prec emax x y.

(** [n / 100.0]-style true division of an integer by a float: the
    integer is converted first. *)
Definition int_truediv (n : Z) (y : spec_float) : spec_float := div (of_int n) y.

(** The literal [100.0]. *)
Definition hundred : spec_float := of_int 100.

(** The nearest integer to [n / d] ([d > 0]), ties to the even one. *)
Definition round_half_even (n d : Z) : Z :=
  let q := n / d in
  let r := n mod d in
  match 2 * r ?= d with
  | Lt => q
  | Gt => q + 1
  | Eq => if Z.even q then q else q + 1
  end.

(** The number of tenths nearest to the exact value [m * 2^e],
    ties to even: the correctly rounded one-digit decimal. *)
Definition tenths (m : positive) (e : Z) : Z :=
  if 0 <=? e then Z.pos m * 2 ^ e * 10
  else round_half_even (Z.pos m * 10) (2 ^ (- e)).

Definition sign_text (s : bool) : string := if s then "-" else "".

(** [f"{x:.1f}"]: fixed notation, one digit after the point, correctly
    rounded from the exact binary value. *)
Definition format_1f (x : spec_float) : string :=
  match x with
  | S754_zero s => sign_text s ++ "0.0"
  | S754_infinity s => sign_text s ++ "inf"
  | S754_nan => "nan"
  | S754_finite s m e =>
      let t := tenths m e in
      sign_text s ++ str_int (t / 10) ++ "." ++ str_int (t mod 10)
  end.

End Float.

(** ** The gear decoder *)

Module Exc.

Definition ret {A} (a : A) : outcome A := Ok a.

Definition bind {A B} (c : outcome A) (k : A -> outcome B) : outcome B :=
  match c with
  | Ok a => k a
  | Raise e => Raise e
  end.

End Exc.

(** [decode_gears(data)] *)
Definition decode_gears (data : bytearray) : outcome (string * string) :=
  if 2 <=? len data then
    Exc.bind (getitem data 2) (fun d2 =>
    let front := 1 + d2 in
    Exc.bind (getitem data 3) (fun d3 =>
    let rear := 1 + d3 in
    Exc.ret ("Front Gear: " ++ str_int front, "Rear Gear : " ++ str_int rear)))
  else
    Exc.ret ("Bad Gear", "Data").

(** ** The grade and lock decoder *)

(** The module-level globals [calc_grade] declares [global]; [None] is
    Python's [None]. *)
Record Globals : Type := mkGlobals {
  current_lock_status : option bool;
  current_grade : option string
}.

(** The globals when the module has been loaded. *)
Definition initial : Globals :=
  {| current_lock_status := None; current_grade := None |}.

(** Computations over the globals that return or raise. *)
Definition M (A : Type) : Type := Globals -> outcome A * Globals.

Definition ret {A} (a : A) : M A := fun g => (Ok a, g).

Definition bind {A B} (c : M A) (k : A -> M B) : M B :=
  fun g =>
    match c g with
    | (Ok a, g') => k a g'
    | (Raise e, g') => (Raise e, g')
    end.

Definition lift {A} (o : outcome A) : M A := fun g => (o, g).

Definition get_lock_status : M (option bool) :=
  fun g => (Ok (current_lock_status g), g).

Definition get_grade : M (option string) :=
  fun g => (Ok (current_grade g), g).

Definition set_lock_status (v : option bool) : M unit :=
  fun g => (Ok tt, {| current_lock_status := v; current_grade := current_grade g |}).

Definition set_grade (v : option string) : M unit :=
  fun g => (Ok tt, {| current_lock_status := current_lock_status g; current_grade := v |}).

(** The condition [data[i] == v]. *)
Definition item_is (data : bytearray) (i : nat) (v : Z) : M bool :=
  bind (lift (getitem data i)) (fun x => ret (x =? v)).

(** Python's [a and b] on conditions: [b] is evaluated only when [a] is
    true. *)
Definition and_then (a b : M bool) : M bool :=
  bind a (fun x => if x then b else ret false).

Declare Scope py_scope.
Delimit Scope py_scope with py.

Notation "x <- c ;; k" := (bind c (fun x => k))
  (at level 61, c at next level, right associativity) : py_scope.
Notation "c ;;; k" := (bind c (fun _ => k))
  (at level 61, right associativity) : py_scope.
Notation "a 'and' b" := (and_then a b)
  (at level 60, right associativity) : py_scope.

Local Open Scope py_scope.

(** ["L" if current_lock_status else "U"] *)
Definition lock_text (b : bool) : string := if b then "L" else "U".

(** [calc_grade(data)] *)
Definition calc_grade (data : bytearray) : M (option string) :=
  is_lock <- (ret (3 <=? len data) and item_is data 0 0xfd and item_is data 1 0x33) ;;
  (if is_lock then
     (* Lock/unlock status - update and persist it *)
     d2 <- lift (getitem data 2) ;;
     set_lock_status (Some (d2 =? 0x01))
   else ret tt) ;;;
  is_grade <- (ret (4 <=? len data) and item_is data 0 0xfd and item_is data 1 0x34) ;;
  (if is_grade then
     (* Grade data *)
     d3 <- lift (getitem data 3) ;;
     if d3 <? 0x80 then
       (* Positive grade *)
       hi <- lift (getitem data 3) ;;
       lo <- lift (getitem data 2) ;;
       let grade_value := Float.int_truediv (Z.lor (Z.shiftl hi 8) lo) Float.hundred in
       set_grade (Some ("+" ++ Float.format_1f grade_value ++ "%"))
     else
       (* Negative grade *)
       hi <- lift (getitem data 3) ;;
       lo <- lift (getitem data 2) ;;
       let tmp16 := 0xffff - Z.lor (Z.shiftl hi 8) lo in
       let grade_value := Float.int_truediv tmp16 Float.hundred in
       set_grade (Some ("-" ++ Float.format_1f grade_value ++ "%"))
   else ret tt) ;;;
  (* Build output with persistent grade and lock status *)
  grade <- get_grade ;;
  match grade with
  | Some g =>
      lock <- get_lock_status ;;
      match lock with
      | Some b => ret (Some (g ++ " (" ++ lock_text b ++ ")"))
      | None => ret (Some g)
      end
  | None =>
      (* If we only have lock status without grade *)
      lock <- get_lock_status ;;
      match lock with
      | Some b => ret (Some (lock_text b))
      | None => ret None
      end
  end.

(** A run of the decoder over the notifications received, in order: the
    globals after the last one ([grade_notification_handler] calls
    [calc_grade] once for each). *)
Fixpoint run_notifications (payloads : list bytearray) (g : Globals) : Globals :=
  match payloads with
  | [] => g
  | data :: rest => run_notifications rest (snd (calc_grade data g))
  end.

(** ** What one call does to the globals

    The effect of [calc_grade] on the globals, read off its two guarded
    updates, and the value its last lines build from the globals. They
    are proved below to be what [calc_grade] computes
    ([calc_grade_run]). *)

(** The grade string the code stores for the bytes [data[2]] and
    [data[3]]. *)
Definition grade_text (lo hi : Z) : string :=
  if hi <? 0x80 then
    "+" ++ Float.format_1f (Float.int_truediv (Z.lor (Z.shiftl hi 8) lo) Float.hundred) ++ "%"
  else
    "-" ++ Float.format_1f (Float.int_truediv (0xffff - Z.lor (Z.shiftl hi 8) lo) Float.hundred) ++ "%".

(** The lock status a payload carries, if it passes the first guard. *)
Definition carried_lock (data : bytearray) : option bool :=
  match data with
  | b0 :: b1 :: b2 :: _ =>
      if (byte_val b0 =? 0xfd) && (byte_val b1 =? 0x33)
      then Some (byte_val b2 =? 0x01) else None
  | _ => None
  end.

(** The grade a payload carries, if it passes the second guard. *)
Definition carried_grade (data : bytearray) : option string :=
  match data with
  | b0 :: b1 :: b2 :: b3 :: _ =>
      if (byte_val b0 =? 0xfd) && (byte_val b1 =? 0x34)
      then Some (grade_text (byte_val b2) (byte_val b3)) else None
  | _ => None
  end.

Definition overwrite {A} (new old : option A) : option A :=
  match new with
  | Some v => Some v
  | None => old
  end.

Definition updated (data : bytearray) (g : Globals) : Globals :=
  {| current_lock_status := overwrite (carried_lock data) (current_lock_status g);
     current_grade := overwrite (carried_grade data) (current_grade g) |}.

(** The value built from the globals by the last lines of [calc_grade]. *)
Definition composite_label (g : Globals) : option string :=
  match current_grade g, current_lock_status g with
  | Some gr, Some b => Some (gr ++ " (" ++ lock_text b ++ ")")
  | Some gr, None => Some gr
  | None, Some b => Some (lock_text b)
  | None, None => None
  end.

(** A payload that begins with the lock header [0xFD 0x33] and has the
    flag byte. *)
Definition lock_payload (data : bytearray) : Prop :=
  exists flag rest, data = xfd :: x33 :: flag :: rest.

(** A payload that begins with the grade header [0xFD 0x34] and has the
    two grade bytes. *)
Definition grade_payload (data : bytearray) : Prop :=
  exists lo hi rest, data = xfd :: x34 :: lo :: hi :: rest.

(** The grade texts the code can store: a sign, the print of a number of
    hundredths between 0 and 0x7fff divided by 100.0, and "%". *)
Definition grade_form (s : string) : Prop :=
  exists n, 0 <= n <= 0x7fff
    /\ (s = "+" ++ Float.format_1f (Float.int_truediv n Float.hundred) ++ "%"
        \/ s = "-" ++ Float.format_1f (Float.int_truediv n Float.hundred) ++ "%").

Definition grade_formed (g : Globals) : Prop :=
  match current_grade g with
  | Some s => grade_form s
  | None => True
  end.

(** ** The notification handlers and their queues

    [gears_queue] and [grade_queue] are unbounded FIFO queues: [put]
    appends, and a handler that raises puts nothing. The handlers ignore
    their [sender] argument, which is left out. *)

Record World : Type := mkWorld {
  globals : Globals;
  gears_queue : list (string * string);
  grade_queue : list string
}.

(** The state when the module has been loaded: both queues empty. *)
Definition initial_world : World :=
  {| globals := initial; gears_queue := []; grade_queue := [] |}.

(** [queue.put(item)] *)
Definition put {A} (queue : list A) (item : A) : list A := queue ++ [item].

(** [gears_notification_handler(sender, data)] *)
Definition gears_notification_handler (data : bytearray) (w : World)
  : outcome unit * World :=
  match decode_gears data with
  | Ok decoded =>
      (Ok tt,
       {| globals := globals w;
          gears_queue := put (gears_queue w) decoded;
          grade_queue := grade_queue w |})
  | Raise e => (Raise e, w)
  end.

(** [grade_notification_handler(sender, data)]. The test
    [if grade_info:] is false on [None] and on the empty string. *)
Definition grade_notification_handler (data : bytearray) (w : World)
  : outcome unit * World :=
  match calc_grade data (globals w) with
  | (Ok grade_info, g) =>
      match grade_info with
      | Some text =>
          if (text =? "")%string then
            (Ok tt, {| globals := g; gears_queue := gears_queue w;
                       grade_queue := grade_queue w |})
          else
            (Ok tt, {| globals := g; gears_queue := gears_queue w;
                       grade_queue := put (grade_queue w) text |})
      | None =>
          (Ok tt, {| globals := g; gears_queue := gears_queue w;
                     grade_queue := grade_queue w |})
      end
  | (Raise e, g) =>
      (Raise e, {| globals := g; gears_queue := gears_queue w;
                   grade_queue := grade_queue w |})
  end.

(** The grade notifications received, in order, each one handled. *)
Fixpoint handle_grades (payloads : list bytearray) (w : World) : World :=
  match payloads with
  | [] => w
  | data :: rest => handle_grades rest (snd (grade_notification_handler data w))
  end.

(** The grade loop of [process_queue], on a live window:
    [while True: grade_data = grade_queue.get_nowait();
    grade_label.config(text=f"Grade: {grade_data}")], left when
    [get_nowait] raises on the empty queue. It returns what is left of the
    queue and the text of [grade_label]. *)
Fixpoint drain_grade_queue (queue : list string) (grade_label : string)
  : list string * string :=
  match queue with
  | [] => ([], grade_label)
  | grade_data :: rest => drain_grade_queue rest ("Grade: " ++ grade_data)
  end.




(** The test of [process_queue] that tells a gear reading from a status
    message: [gear_data[0].startswith("Front Gear:")]. *)
Definition is_gear_reading (gear_data : string * string) : bool :=
  String.prefix "Front Gear:" (fst gear_data).

(** The status pairs [main] puts on [gears_queue]; [e] is the text of
    the exception caught, [device_name] the name of the device found. *)
Inductive status : Type :=
| Scanning
| NotFound
| ConnectionFailed
| ConnectedTo (device_name : string)
| ConnectionLost
| ConnectionError (e : string)
| OtherError (e : string).

Definition status_message (s : status) : string * string :=
  match s with
  | Scanning => ("Scanning for", "KICKR...")
  | NotFound => ("KICKR not found.", "Retrying...")
  | ConnectionFailed => ("Connection failed.", "Retrying...")
  | ConnectedTo device_name => ("Connected to:", device_name)
  | ConnectionLost => ("Connection lost.", "Reconnecting...")
  | ConnectionError e => ("Connection error " ++ e, "Reconnecting...")
  | OtherError e => ("Error: " ++ e, "Retrying...")
  end.

(** ** The choice of the device in [main] *)

Record BLEDevice : Type := mkDevice {
  address : string;
  name : option string
}.

(** [needle in hay] on strings. *)
Fixpoint contains (needle hay : string) : bool :=
  if String.prefix needle hay then true
  else match hay with
       | EmptyString => false
       | String _ hay' => contains needle hay'
       end.

(** [d.name and "KICKR" in d.name]: the name is neither [None] nor empty
    and has "KICKR" in it. *)
Definition is_kickr (d : BLEDevice) : bool :=
  match name d with
  | None => false
  | Some n => if (n =? "")%string then false else contains "KICKR" n
  end.

(** The loop [for d in devices: if ...: kicker = d; break], from
    [kicker = None]. *)
Fixpoint find_kicker (devices : list BLEDevice) : option BLEDevice :=
  match devices with
  | [] => None
  | d :: rest => if is_kickr d then Some d else find_kicker rest
  end.

(** A device whose name has "KICKR" in it. *)
Definition named_kickr (d : BLEDevice) : Prop :=
  exists before after, name d = Some (before ++ "KICKR" ++ after).

(** ** The configuration file

    [kickr_gears_config.json] is modelled by what reading it gives: it is
    missing, or reading it raises, or it holds a JSON document. A
    document written by [json.dump] is read back by [json.load] as it
    was. Writing the file is taken to succeed. *)

Module Config.

(** The values of a JSON document, which are also the Python values that
    the configuration functions pass around; [JNull] is [None]. *)
#[warnings="-register-all"]
Inductive json : Type :=
| JNull
| JBool (b : bool)
| JInt (n : Z)
| JFloat (x : spec_float)
| JStr (s : string)
| JList (items : list json)
| JObj (members : list (string * json)).

(** A Python [dict] with string keys, in insertion order. *)
Definition dict : Type := list (string * json).

(** [d.get(key, default)] *)
Fixpoint dict_get (d : dict) (key : string) (default : json) : json :=
  match d with
  | [] => default
  | (k, v) :: rest => if (k =? key)%string then v else dict_get rest key default
  end.

(** [d[key] = value]: the key keeps its place if it is there, and is
    added at the end if not. *)
Fixpoint dict_set (d : dict) (key : string) (value : json) : dict :=
  match d with
  | [] => [(key, value)]
  | (k, v) :: rest =>
      if (k =? key)%string then (k, value) :: rest
      else (k, v) :: dict_set rest key value
  end.

(** The exceptions the functions catch. *)
Inductive error : Type :=
| JSONDecodeError
| OSError
| AttributeError
| TypeError.

(** The file: not there; there, but opening it or reading it as JSON
    raises [e]; or there and holding a JSON document. *)
Inductive file : Type :=
| Missing
| Unreadable (e : error)
| Holds (doc : json).

(** The file, the global [window_scale] and the lines printed, each the
    fixed text and the exception that follows it. *)
Record Env : Type := mkEnv {
  config_file : file;
  window_scale : json;
  printed : list (string * error)
}.

Definition one : json := JFloat (Float.of_int 1).

(** The environment when the module has been loaded, for a given file. *)
Definition start (f : file) : Env :=
  {| config_file := f; window_scale := one; printed := [] |}.

(** [print(f"{text}{e}")] *)
Definition print (text : string) (e : error) (env : Env) : Env :=
  {| config_file := config_file env;
     window_scale := window_scale env;
     printed := printed env ++ [(text, e)] |}.

Definition set_window_scale (v : json) (env : Env) : Env :=
  {| config_file := config_file env; window_scale := v; printed := printed env |}.

(** [json.dump(config, f, indent=2)] on the file opened for writing. *)
Definition write (config : dict) (env : Env) : Env :=
  {| config_file := Holds (JObj config);
     window_scale := window_scale env;
     printed := printed env |}.

Definition title_bar_height : Z := 32.

(** [y - title_bar_height] for a Python value [y]: an integer, a boolean
    (an integer in Python) or a float; anything else raises
    [TypeError]. *)
Definition minus_title_bar (y : json) : error + json :=
  match y with
  | JInt n => inr (JInt (n - title_bar_height))
  | JBool b => inr (JInt ((if b then 1 else 0) - title_bar_height))
  | JFloat x => inr (JFloat (SFsub Float.prec Float.emax x (Float.of_int title_bar_height)))
  | _ => inl TypeError
  end.

(** [load_config()] *)
Definition load_config (env : Env) : (json * json * json) * Env :=
  match config_file env with
  | Missing => ((JInt 100, JInt 100, one), env)
  | Unreadable e =>
      ((JInt 100, JInt 100, one), print "Error loading config: " e env)
  | Holds (JObj config) =>
      let x := dict_get config "window_x" (JInt 100) in
      let y := dict_get config "window_y" (JInt 100) in
      let env := set_window_scale (dict_get config "scale" one) env in
      (* Adjust Y position for title bar height (starts visible) *)
      match minus_title_bar y with
      | inr y' => ((x, y', window_scale env), env)
      | inl e => ((JInt 100, JInt 100, one), print "Error loading config: " e env)
      end
  | Holds _ =>
      ((JInt 100, JInt 100, one), print "Error loading config: " AttributeError env)
  end.

(** [load_dialog_position()] *)
Definition load_dialog_position (env : Env) : (json * json) * Env :=
  match config_file env with
  | Missing => ((JNull, JNull), env)
  | Unreadable e =>
      ((JNull, JNull), print "Error loading dialog config: " e env)
  | Holds (JObj config) =>
      ((dict_get config "dialog_x" JNull, dict_get config "dialog_y" JNull), env)
  | Holds _ =>
      ((JNull, JNull), print "Error loading dialog config: " AttributeError env)
  end.

(** [save_dialog_position(x, y)] *)
Definition save_dialog_position (x y : Z) (env : Env) : Env :=
  match config_file env with
  | Missing =>
      write (dict_set (dict_set [] "dialog_x" (JInt x)) "dialog_y" (JInt y)) env
  | Unreadable e => print "Error saving dialog config: " e env
  | Holds (JObj config) =>
      write (dict_set (dict_set config "dialog_x" (JInt x)) "dialog_y" (JInt y)) env
  | Holds _ => print "Error saving dialog config: " TypeError env
  end.


(** [save_window_position(x, y)] *)
Definition save_window_position (x y : Z) (env : Env) : Env :=
  let store (config : dict) : dict :=
    dict_set (dict_set (dict_set config "window_x" (JInt x)) "window_y" (JInt y))
             "scale" (window_scale env) in
  match config_file env with
  | Missing => write (store []) env
  | Unreadable e => print "Error saving config: " e env
  | Holds (JObj config) => write (store config) env
  | Holds _ => print "Error saving config: " TypeError env
  end.


(** The file is there and cannot be read as a JSON object. *)
Definition broken (f : file) : Prop :=
  (exists e, f = Unreadable e) \/ (exists doc, f = Holds doc /\ forall config, doc <> JObj config).

End Config.

(** * Properties *)

(** ** Bytes and lengths *)

Lemma byte_val_range (b : byte) : 0 <= byte_val b < 256.
Proof.
  unfold byte_val. pose proof (Byte.to_N_bounded b) as H. lia.
Qed.

Lemma byte_val_inj (a b : byte) : byte_val a = byte_val b -> a = b.
Proof.
  unfold byte_val. intros H. apply N2Z.inj in H.
  pose proof (Byte.of_to_N a) as Ha. pose proof (Byte.of_to_N b) as Hb.
  rewrite H in Ha. congruence.
Qed.

Lemma byte_val_eqb (a b : byte) : (byte_val a =? byte_val b) = true <-> a = b.
Proof.
  rewrite Z.eqb_eq. split; [apply byte_val_inj | congruence].
Qed.

Lemma len_nonneg (data : bytearray) : 0 <= len data.
Proof. unfold len. lia. Qed.

Lemma len_cons (b : byte) (data : bytearray) : len (b :: data) = 1 + len data.
Proof. unfold len. cbn [List.length]. lia. Qed.

(** The two grade bytes compose little-endian: [(hi << 8) | lo] is
    [256 * hi + lo]. *)
Lemma raw16_value (lo hi : byte) :
  Z.lor (Z.shiftl (byte_val hi) 8) (byte_val lo) = 256 * byte_val hi + byte_val lo.
Proof.
  pose proof (byte_val_range lo) as Hlo. pose proof (byte_val_range hi) as Hhi.
  assert (D : Z.land (Z.shiftl (byte_val hi) 8) (byte_val lo) = 0).
  { apply Z.bits_inj'. intros n Hn.
    rewrite Z.land_spec, Z.bits_0.
    destruct (Z.ltb_spec n 8) as [Hlt | Hge].
    - rewrite Z.shiftl_spec_low by assumption. reflexivity.
    - destruct (Z.eq_dec (byte_val lo) 0) as [E | NE].
      + rewrite E, Z.bits_0. apply andb_false_r.
      + rewrite (Z.bits_above_log2 (byte_val lo) n), andb_false_r; [reflexivity | lia |].
        apply Z.log2_lt_pow2; [lia |].
        apply Z.lt_le_trans with (2 ^ 8); [lia |].
        apply Z.pow_le_mono_r; lia. }
  rewrite <- (Z.lxor_lor _ _ D), <- (Z.add_nocarry_lxor _ _ D).
  rewrite Z.shiftl_mul_pow2 by lia. lia.
Qed.

(** So the value of the positive branch is below 0x8000 and the [tmp16]
    of the negative branch is between 0 and 0x7fff. *)
Lemma raw16_range (lo hi : byte) :
  let raw := Z.lor (Z.shiftl (byte_val hi) 8) (byte_val lo) in
  0 <= raw <= 0xffff
  /\ (byte_val hi < 0x80 -> raw < 0x8000)
  /\ (0x80 <= byte_val hi -> 0 <= 0xffff - raw <= 0x7fff).
Proof.
  cbv zeta. rewrite raw16_value.
  pose proof (byte_val_range lo). pose proof (byte_val_range hi). lia.
Qed.

(** ** Floats as printed

    The format rounds the binary value of the quotient, not the decimal
    fraction: 0.25 and 1.25 are exact in binary and go to the even digit,
    0.75 goes up, and 2.55, stored a little below, goes down. *)

Example format_1f_samples :
  map (fun n => Float.format_1f (Float.int_truediv n Float.hundred))
      [0; 5; 25; 75; 80; 125; 255; 32767]
  = ["0.0"; "0.1"; "0.2"; "0.8"; "0.8"; "1.2"; "2.5"; "327.7"].
Proof. reflexivity. Qed.

(** ** The gear decoder *)

Lemma getitem_nth (data : bytearray) (i : nat) (b : byte) :
  nth_error data i = Some b -> getitem data i = Ok (byte_val b).
Proof. unfold getitem. intros ->. reflexivity. Qed.

Lemma getitem_past_end (data : bytearray) (i : nat) :
  (List.length data <= i)%nat -> getitem data i = Raise IndexError.
Proof.
  intros H. unfold getitem.
  apply nth_error_None in H. rewrite H. reflexivity.
Qed.

Lemma decode_gears_guard (b0 b1 : byte) (rest : bytearray) :
  (2 <=? len (b0 :: b1 :: rest)) = true.
Proof.
  apply Z.leb_le. rewrite !len_cons. pose proof (len_nonneg rest). lia.
Qed.

(** C4: on a payload of at least four bytes the decoder returns the two
    labels "Front Gear: " and "Rear Gear : " followed by one plus the byte
    at offset 2 and one plus the byte at offset 3, in decimal; on the
    payload [0,0,0,5] it returns ("Front Gear: 1", "Rear Gear : 6"). *)
Theorem decode_gears_four_bytes (b0 b1 b2 b3 : byte) (rest : bytearray) :
  decode_gears (b0 :: b1 :: b2 :: b3 :: rest)
  = Ok ("Front Gear: " ++ str_int (1 + byte_val b2),
        "Rear Gear : " ++ str_int (1 + byte_val b3))
  /\ decode_gears [x00; x00; x00; x05] = Ok ("Front Gear: 1", "Rear Gear : 6").
Proof.
  split; [| reflexivity].
  unfold decode_gears. rewrite decode_gears_guard.
  rewrite (getitem_nth _ 2 b2), (getitem_nth _ 3 b3) by reflexivity.
  reflexivity.
Qed.

(** C9: on a payload of fewer than two bytes, the empty one included, the
    decoder returns the pair ("Bad Gear", "Data") and does not raise. *)
Theorem decode_gears_short (data : bytearray) :
  len data < 2 -> decode_gears data = Ok ("Bad Gear", "Data").
Proof.
  intros H. unfold decode_gears.
  apply Z.leb_gt in H. rewrite H. reflexivity.
Qed.

Lemma decode_gears_short_witness :
  len [x2a] < 2 /\ decode_gears [x2a] = Ok ("Bad Gear", "Data").
Proof.
  split; [reflexivity | apply (decode_gears_short [x2a]); reflexivity].
Defined.

(** C3: what the code does on a payload of exactly two bytes. The guard
    [len(data) >= 2] lets it through, and the read of [data[2]] raises
    [IndexError]: the placeholder pair is not returned. *)
Theorem decode_gears_two_bytes_raises (b0 b1 : byte) :
  decode_gears [b0; b1] = Raise IndexError
  /\ decode_gears [b0; b1] <> Ok ("Bad Gear", "Data").
Proof.
  split; [reflexivity | discriminate].
Qed.

(** The same guard lets a payload of three bytes through to the read of
    [data[3]]. *)
Lemma decode_gears_three_bytes_raises (b0 b1 b2 : byte) :
  decode_gears [b0; b1; b2] = Raise IndexError.
Proof. reflexivity. Qed.

(** ** The grade and lock decoder *)

Lemma guard_lock_len (b0 b1 b2 : byte) (rest : bytearray) :
  (3 <=? len (b0 :: b1 :: b2 :: rest)) = true.
Proof.
  apply Z.leb_le. rewrite !len_cons. pose proof (len_nonneg rest). lia.
Qed.

Lemma guard_grade_len (b0 b1 b2 b3 : byte) (rest : bytearray) :
  (4 <=? len (b0 :: b1 :: b2 :: b3 :: rest)) = true.
Proof.
  apply Z.leb_le. rewrite !len_cons. pose proof (len_nonneg rest). lia.
Qed.

Ltac run_monad :=
  unfold item_is, bind, and_then, lift, ret, getitem, get_grade, get_lock_status,
    set_grade, set_lock_status;
  cbn [nth_error fst snd current_grade current_lock_status].

(** One call never raises; it leaves the globals [updated] and returns
    the label composed from them. *)
Lemma calc_grade_run (data : bytearray) (g : Globals) :
  calc_grade data g = (Ok (composite_label (updated data g)), updated data g).
Proof.
  destruct g as [l gr].
  destruct data as [| b0 [| b1 [| b2 [| b3 rest]]]].
  - destruct gr, l; reflexivity.
  - destruct gr, l; reflexivity.
  - destruct gr, l; reflexivity.
  - unfold calc_grade, updated, composite_label, carried_lock, carried_grade, overwrite.
    rewrite guard_lock_len. change (4 <=? len [b0; b1; b2]) with false.
    run_monad.
    destruct (byte_val b0 =? 253), (byte_val b1 =? 51); cbn [andb];
      destruct gr, l; reflexivity.
  - unfold calc_grade, updated, composite_label, carried_lock, carried_grade,
      overwrite, grade_text.
    rewrite guard_lock_len, guard_grade_len.
    run_monad.
    destruct (byte_val b0 =? 253), (byte_val b1 =? 51), (byte_val b1 =? 52);
      cbn [andb current_grade current_lock_status];
      try destruct (byte_val b3 <? 128);
      cbn [current_grade current_lock_status];
      destruct gr, l; reflexivity.
Qed.

Lemma updated_same (data : bytearray) (g : Globals) :
  carried_lock data = None -> carried_grade data = None -> updated data g = g.
Proof.
  intros Hl Hg. unfold updated. rewrite Hl, Hg. destruct g; reflexivity.
Qed.

Lemma carried_lock_Some (data : bytearray) (v : bool) :
  carried_lock data = Some v ->
  exists flag rest,
    data = xfd :: x33 :: flag :: rest /\ v = (byte_val flag =? 0x01).
Proof.
  destruct data as [| b0 [| b1 [| b2 rest]]]; try discriminate.
  unfold carried_lock.
  destruct (byte_val b0 =? 253) eqn:H0; [| discriminate].
  destruct (byte_val b1 =? 51) eqn:H1; [| discriminate].
  apply (byte_val_eqb b0 xfd) in H0. apply (byte_val_eqb b1 x33) in H1.
  subst b0 b1. cbn [andb]. intros [= <-]. exists b2, rest. split; reflexivity.
Qed.

Lemma carried_grade_Some (data : bytearray) (v : string) :
  carried_grade data = Some v ->
  exists lo hi rest,
    data = xfd :: x34 :: lo :: hi :: rest /\ v = grade_text (byte_val lo) (byte_val hi).
Proof.
  destruct data as [| b0 [| b1 [| b2 [| b3 rest]]]]; try discriminate.
  unfold carried_grade.
  destruct (byte_val b0 =? 253) eqn:H0; [| discriminate].
  destruct (byte_val b1 =? 52) eqn:H1; [| discriminate].
  apply (byte_val_eqb b0 xfd) in H0. apply (byte_val_eqb b1 x34) in H1.
  subst b0 b1. cbn [andb]. intros [= <-]. exists b2, b3, rest. split; reflexivity.
Qed.

Lemma carried_lock_None (data : bytearray) :
  firstn 2 data <> [xfd; x33] -> carried_lock data = None.
Proof.
  intros H. destruct (carried_lock data) as [v |] eqn:E; [| reflexivity].
  apply carried_lock_Some in E. destruct E as (flag & rest & -> & _).
  exfalso. apply H. reflexivity.
Qed.

Lemma carried_grade_None (data : bytearray) :
  firstn 2 data <> [xfd; x34] -> carried_grade data = None.
Proof.
  intros H. destruct (carried_grade data) as [v |] eqn:E; [| reflexivity].
  apply carried_grade_Some in E. destruct E as (lo & hi & rest & -> & _).
  exfalso. apply H. reflexivity.
Qed.

Lemma carried_lock_short (data : bytearray) :
  len data < 3 -> carried_lock data = None.
Proof.
  intros H. destruct (carried_lock data) as [v |] eqn:E; [| reflexivity].
  apply carried_lock_Some in E. destruct E as (flag & rest & -> & _).
  rewrite !len_cons in H. pose proof (len_nonneg rest). lia.
Qed.

Lemma carried_grade_short (data : bytearray) :
  len data < 4 -> carried_grade data = None.
Proof.
  intros H. destruct (carried_grade data) as [v |] eqn:E; [| reflexivity].
  apply carried_grade_Some in E. destruct E as (lo & hi & rest & -> & _).
  rewrite !len_cons in H. pose proof (len_nonneg rest). lia.
Qed.

Lemma run_notifications_app (ps qs : list bytearray) (g : Globals) :
  run_notifications (ps ++ qs) g = run_notifications qs (run_notifications ps g).
Proof.
  revert g. induction ps as [| data ps IH]; intros g; cbn; [reflexivity | apply IH].
Qed.

Lemma run_notifications_keeps_grade (qs : list bytearray) (g : Globals) :
  current_grade g <> None -> current_grade (run_notifications qs g) <> None.
Proof.
  revert g. induction qs as [| data qs IH]; intros g H; cbn; [exact H |].
  apply IH. rewrite calc_grade_run. cbn.
  unfold overwrite. destruct (carried_grade data); [discriminate | exact H].
Qed.

Lemma run_notifications_keeps_lock (qs : list bytearray) (g : Globals) :
  current_lock_status g <> None ->
  current_lock_status (run_notifications qs g) <> None.
Proof.
  revert g. induction qs as [| data qs IH]; intros g H; cbn; [exact H |].
  apply IH. rewrite calc_grade_run. cbn.
  unfold overwrite. destruct (carried_lock data); [discriminate | exact H].
Qed.

(** C1: the value a call returns is composed from both globals as the
    call leaves them: the grade followed by " (L)" or " (U)" when both
    are set, the grade alone when only it is set, "L" or "U" when only
    the lock status is set, and None when neither is. So a lock payload
    received when a grade is known returns the grade with the lock. *)
Theorem calc_grade_composes (data : bytearray) (g : Globals) :
  (let g' := snd (calc_grade data g) in
   fst (calc_grade data g)
   = Ok match current_grade g', current_lock_status g' with
        | Some gr, Some true => Some (gr ++ " (L)")
        | Some gr, Some false => Some (gr ++ " (U)")
        | Some gr, None => Some gr
        | None, Some true => Some "L"
        | None, Some false => Some "U"
        | None, None => None
        end)
  /\ calc_grade [xfd; x33; x01]
       {| current_lock_status := None; current_grade := Some "+0.8%" |}
     = (Ok (Some "+0.8% (L)"),
        {| current_lock_status := Some true; current_grade := Some "+0.8%" |}).
Proof.
  split; [| reflexivity].
  rewrite calc_grade_run. cbn [fst snd]. unfold composite_label.
  destruct (current_grade (updated data g)) as [gr |],
    (current_lock_status (updated data g)) as [[|] |]; reflexivity.
Qed.

Lemma updated_grade_payload (lo hi : byte) (rest : bytearray) (g : Globals) :
  updated (xfd :: x34 :: lo :: hi :: rest) g
  = {| current_lock_status := current_lock_status g;
       current_grade := Some (grade_text (byte_val lo) (byte_val hi)) |}.
Proof. reflexivity. Qed.

(** C2: a grade payload (header 0xFD 0x34, at least four bytes) whose high
    byte is 0x80 or more stores as grade "-", then
    (0xFFFF - ((data[3] << 8) | data[2])) / 100.0 printed with one digit
    after the point, then "%", and the call returns the label composed
    with it. With the lock status unlocked, the payload
    [0xFD,0x34,0x00,0xFF] has tmp = 255 and returns "-" followed by
    255 / 100.0 so printed and "% (U)", which is "-2.5% (U)". *)
Theorem calc_grade_negative (lo hi : byte) (rest : bytearray) (g : Globals) :
  0x80 <= byte_val hi ->
  (let raw := Z.lor (Z.shiftl (byte_val hi) 8) (byte_val lo) in
   let g' :=
     {| current_lock_status := current_lock_status g;
        current_grade :=
          Some ("-" ++ Float.format_1f (Float.int_truediv (0xffff - raw) Float.hundred)
                ++ "%") |} in
   calc_grade (xfd :: x34 :: lo :: hi :: rest) g = (Ok (composite_label g'), g'))
  /\ (forall prior : option string,
       0xffff - Z.lor (Z.shiftl (byte_val xff) 8) (byte_val x00) = 255
       /\ fst (calc_grade [xfd; x34; x00; xff]
                 {| current_lock_status := Some false; current_grade := prior |})
          = Ok (Some ("-" ++ Float.format_1f (Float.int_truediv 255 Float.hundred)
                      ++ "% (U)"))
       /\ calc_grade [xfd; x34; x00; xff]
            {| current_lock_status := Some false; current_grade := prior |}
          = (Ok (Some "-2.5% (U)"),
             {| current_lock_status := Some false; current_grade := Some "-2.5%" |})).
Proof.
  intros H. split.
  - rewrite calc_grade_run, updated_grade_payload. unfold grade_text.
    apply Z.ltb_ge in H. rewrite H. reflexivity.
  - intros prior. rewrite calc_grade_run. repeat split; reflexivity.
Qed.

Lemma calc_grade_negative_witness :
  0x80 <= byte_val xff
  /\ calc_grade [xfd; x34; x00; xff] initial
     = (Ok (Some "-2.5%"),
        {| current_lock_status := None; current_grade := Some "-2.5%" |}).
Proof.
  split; [discriminate |].
  apply (proj1 (calc_grade_negative x00 xff [] initial ltac:(discriminate))).
Defined.

(** C5: a grade payload (header 0xFD 0x34, at least four bytes) whose high
    byte is below 0x80 stores as grade "+", then
    ((data[3] << 8) | data[2]) / 100.0 printed with one digit after the
    point, then "%", and the call returns the label composed with it.
    With the lock status locked, the payload [0xFD,0x34,0x50,0x00]
    returns "+0.8% (L)". *)
Theorem calc_grade_positive (lo hi : byte) (rest : bytearray) (g : Globals) :
  byte_val hi < 0x80 ->
  (let raw := Z.lor (Z.shiftl (byte_val hi) 8) (byte_val lo) in
   let g' :=
     {| current_lock_status := current_lock_status g;
        current_grade :=
          Some ("+" ++ Float.format_1f (Float.int_truediv raw Float.hundred) ++ "%") |} in
   calc_grade (xfd :: x34 :: lo :: hi :: rest) g = (Ok (composite_label g'), g'))
  /\ (forall prior : option string,
       calc_grade [xfd; x34; x50; x00]
         {| current_lock_status := Some true; current_grade := prior |}
       = (Ok (Some "+0.8% (L)"),
          {| current_lock_status := Some true; current_grade := Some "+0.8%" |})).
Proof.
  intros H. split.
  - rewrite calc_grade_run, updated_grade_payload. unfold grade_text.
    apply Z.ltb_lt in H. rewrite H. reflexivity.
  - intros prior. rewrite calc_grade_run. reflexivity.
Qed.

Lemma calc_grade_positive_witness :
  byte_val x00 < 0x80
  /\ calc_grade [xfd; x34; x50; x00] initial
     = (Ok (Some "+0.8%"),
        {| current_lock_status := None; current_grade := Some "+0.8%" |}).
Proof.
  split; [reflexivity |].
  apply (proj1 (calc_grade_positive x50 x00 [] initial ltac:(reflexivity))).
Defined.

(** C6: a lock payload (header 0xFD 0x33, at least three bytes) sets the
    lock status to true exactly when the flag byte is 0x01 and to false
    for any other flag, and leaves the grade as it was; from the initial
    globals the payload [0xFD,0x33,0x01] returns "L". *)
Theorem calc_grade_lock (flag : byte) (rest : bytearray) (g : Globals) :
  (let g' :=
     {| current_lock_status := Some (byte_val flag =? 0x01);
        current_grade := current_grade g |} in
   calc_grade (xfd :: x33 :: flag :: rest) g = (Ok (composite_label g'), g'))
  /\ (current_lock_status (snd (calc_grade (xfd :: x33 :: flag :: rest) g)) = Some true
      <-> flag = x01)
  /\ (current_lock_status (snd (calc_grade (xfd :: x33 :: flag :: rest) g)) = Some false
      <-> flag <> x01)
  /\ calc_grade [xfd; x33; x01] initial
     = (Ok (Some "L"), {| current_lock_status := Some true; current_grade := None |}).
Proof.
  assert (E : updated (xfd :: x33 :: flag :: rest) g
              = {| current_lock_status := Some (byte_val flag =? 0x01);
                   current_grade := current_grade g |}).
  { unfold updated. f_equal.
    destruct rest as [| b3 rest]; reflexivity. }
  rewrite calc_grade_run, E. cbn [snd current_lock_status].
  pose proof (byte_val_eqb flag x01) as Hflag.
  change (byte_val x01) with 1 in Hflag.
  repeat split.
  - intros [= H]. apply Hflag, H.
  - intros H. f_equal. apply Hflag, H.
  - intros [= H] ->. discriminate.
  - intros H. f_equal. destruct (byte_val flag =? 1); [| reflexivity].
    exfalso. apply H, Hflag. reflexivity.
Qed.

(** C7: over every sequence of notifications from the initial globals, a
    field that is set stays set through all later calls, and a call
    changes a field only when its payload carries that field: the grade
    only on a grade payload, the lock status only on a lock payload. *)
Theorem fields_never_cleared (ps qs : list bytearray) (data : bytearray) :
  let g := run_notifications ps initial in
  (current_grade g <> None ->
   current_grade (run_notifications (ps ++ qs) initial) <> None)
  /\ (current_lock_status g <> None ->
      current_lock_status (run_notifications (ps ++ qs) initial) <> None)
  /\ (current_grade (snd (calc_grade data g)) <> current_grade g ->
      grade_payload data)
  /\ (current_lock_status (snd (calc_grade data g)) <> current_lock_status g ->
      lock_payload data)
  /\ (exists r, fst (calc_grade data g) = Ok r).
Proof.
  intros g. rewrite run_notifications_app. fold g.
  rewrite calc_grade_run. cbn [fst snd updated current_grade current_lock_status].
  repeat split.
  - apply run_notifications_keeps_grade.
  - apply run_notifications_keeps_lock.
  - destruct (carried_grade data) as [v |] eqn:E.
    + intros _. apply carried_grade_Some in E.
      destruct E as (lo & hi & rest & -> & _). exists lo, hi, rest. reflexivity.
    + intros H. exfalso. apply H. reflexivity.
  - destruct (carried_lock data) as [v |] eqn:E.
    + intros _. apply carried_lock_Some in E.
      destruct E as (flag & rest & -> & _). exists flag, rest. reflexivity.
    + intros H. exfalso. apply H. reflexivity.
  - eexists. reflexivity.
Qed.

Lemma fields_never_cleared_witness :
  current_grade
    (run_notifications ([[xfd; x34; x50; x00]] ++ [[x00; x00]; [xfd; x33; x00]]) initial)
  <> None
  /\ current_lock_status
       (run_notifications ([[xfd; x33; x01]] ++ [[xfd; x34]; []]) initial)
     <> None
  /\ grade_payload [xfd; x34; x00; xff]
  /\ lock_payload [xfd; x33; x00].
Proof.
  repeat split.
  - apply (fields_never_cleared [[xfd; x34; x50; x00]] [[x00; x00]; [xfd; x33; x00]] []).
    discriminate.
  - apply (fields_never_cleared [[xfd; x33; x01]] [[xfd; x34]; []] []).
    discriminate.
  - apply (fields_never_cleared [] [] [xfd; x34; x00; xff]). discriminate.
  - apply (fields_never_cleared [[xfd; x33; x01]] [] [xfd; x33; x00]). discriminate.
Defined.

(** C8: a payload whose first two bytes are neither 0xFD 0x33 nor
    0xFD 0x34 leaves both globals as they were and raises nothing; the
    call returns the label of the unchanged globals, which is None from
    the initial ones. The header [0x00,0x00] is such a payload. *)
Theorem calc_grade_unknown_header (data : bytearray) (g : Globals) :
  firstn 2 data <> [xfd; x33] ->
  firstn 2 data <> [xfd; x34] ->
  calc_grade data g = (Ok (composite_label g), g)
  /\ calc_grade data initial = (Ok None, initial)
  /\ (forall rest, calc_grade (x00 :: x00 :: rest) g = (Ok (composite_label g), g))
  /\ (forall rest, calc_grade (x00 :: x00 :: rest) initial = (Ok None, initial)).
Proof.
  intros Hl Hg.
  assert (U : forall d g0, firstn 2 d <> [xfd; x33] -> firstn 2 d <> [xfd; x34] ->
                           calc_grade d g0 = (Ok (composite_label g0), g0)).
  { intros d g0 H1 H2. rewrite calc_grade_run.
    rewrite updated_same; [reflexivity | |].
    - apply carried_lock_None, H1.
    - apply carried_grade_None, H2. }
  repeat split.
  - apply U; assumption.
  - apply (U data initial); assumption.
  - intros rest. apply U; discriminate.
  - intros rest. apply (U _ initial); discriminate.
Qed.

Lemma calc_grade_unknown_header_witness :
  firstn 2 [x00; x00] <> [xfd; x33]
  /\ firstn 2 [x00; x00] <> [xfd; x34]
  /\ calc_grade [x00; x00] initial = (Ok None, initial).
Proof.
  split; [discriminate |]. split; [discriminate |].
  apply (calc_grade_unknown_header [x00; x00] initial); discriminate.
Defined.

(** C10: a payload with the lock header and fewer than three bytes, or
    with the grade header and fewer than four, is read within its bounds:
    the call raises nothing, leaves both globals as they were and returns
    the label of the unchanged globals, None when both are unset. *)
Theorem calc_grade_truncated (data : bytearray) (g : Globals) :
  (firstn 2 data = [xfd; x33] /\ len data < 3)
  \/ (firstn 2 data = [xfd; x34] /\ len data < 4) ->
  calc_grade data g = (Ok (composite_label g), g)
  /\ calc_grade data initial = (Ok None, initial).
Proof.
  intros H.
  assert (Hl : carried_lock data = None).
  { destruct H as [[_ H] | [H _]].
    - apply carried_lock_short, H.
    - apply carried_lock_None. rewrite H. discriminate. }
  assert (Hg : carried_grade data = None).
  { destruct H as [[H _] | [_ H]].
    - apply carried_grade_None. rewrite H. discriminate.
    - apply carried_grade_short, H. }
  split; rewrite calc_grade_run, updated_same by assumption; reflexivity.
Qed.

Lemma calc_grade_truncated_witness :
  ((firstn 2 [xfd; x34; x50] = [xfd; x34] /\ len [xfd; x34; x50] < 4)
   /\ calc_grade [xfd; x34; x50]
        {| current_lock_status := Some true; current_grade := Some "+0.8%" |}
      = (Ok (Some "+0.8% (L)"),
         {| current_lock_status := Some true; current_grade := Some "+0.8%" |}))
  /\ ((firstn 2 [xfd; x33] = [xfd; x33] /\ len [xfd; x33] < 3)
      /\ calc_grade [xfd; x33] initial = (Ok None, initial)).
Proof.
  split; (split; [split; reflexivity |]).
  - apply (calc_grade_truncated [xfd; x34; x50]).
    right. split; reflexivity.
  - apply (calc_grade_truncated [xfd; x33] initial).
    left. split; reflexivity.
Defined.

(** * Further properties of the code *)

(** ** Printed integers *)

Lemma to_int_not_nil (n : Z) : Z.to_int n <> Decimal.Pos Decimal.Nil /\ Z.to_int n <> Decimal.Neg Decimal.Nil.
Proof.
  rewrite <- (DecimalZ.of_to n), DecimalZ.to_of.
  destruct (Z.to_int n) as [d | d]; cbn.
  - split; [| discriminate].
    intros [= H]. exact (DecimalFacts.unorm_nonnil d H).
  - destruct (Decimal.nzhead d) eqn:E; split; discriminate.
Qed.

(** [str] of an integer tells the integer. *)
Lemma str_int_inj (a b : Z) : str_int a = str_int b -> a = b.
Proof.
  unfold str_int. intros H.
  apply DecimalZ.to_int_inj.
  destruct (to_int_not_nil a) as [Ha1 Ha2], (to_int_not_nil b) as [Hb1 Hb2].
  pose proof (NilZero.isi _ Ha1 Ha2) as Ia. pose proof (NilZero.isi _ Hb1 Hb2) as Ib.
  rewrite H in Ia. congruence.
Qed.

(** ** The gear decoder, over all payloads *)

Lemma payload_by_length (data : bytearray) :
  len data < 2
  \/ (exists b0 b1, data = [b0; b1])
  \/ (exists b0 b1 b2, data = [b0; b1; b2])
  \/ (exists b0 b1 b2 b3 rest, data = b0 :: b1 :: b2 :: b3 :: rest).
Proof.
  destruct data as [| b0 [| b1 [| b2 [| b3 rest]]]].
  - left. reflexivity.
  - left. reflexivity.
  - right. left. exists b0, b1. reflexivity.
  - right. right. left. exists b0, b1, b2. reflexivity.
  - right. right. right. exists b0, b1, b2, b3, rest. reflexivity.
Qed.

Lemma len_four (b0 b1 b2 b3 : byte) (rest : bytearray) :
  4 <= len (b0 :: b1 :: b2 :: b3 :: rest).
Proof. rewrite !len_cons. pose proof (len_nonneg rest). lia. Qed.

Lemma decode_gears_placeholder (data : bytearray) :
  len data < 2 -> decode_gears data = Ok ("Bad Gear", "Data").
Proof.
  intros H. unfold decode_gears. apply Z.leb_gt in H. rewrite H. reflexivity.
Qed.

Lemma decode_gears_long (b0 b1 b2 b3 : byte) (rest : bytearray) :
  decode_gears (b0 :: b1 :: b2 :: b3 :: rest)
  = Ok ("Front Gear: " ++ str_int (1 + byte_val b2),
        "Rear Gear : " ++ str_int (1 + byte_val b3)).
Proof.
  unfold decode_gears. rewrite decode_gears_guard. reflexivity.
Qed.

(** X1: the decoder raises exactly on the payloads of two or three bytes,
    and returns the placeholder pair exactly on those of fewer than two:
    no payload of four bytes or more is taken for bad data. *)
Theorem decode_gears_by_length (data : bytearray) :
  (decode_gears data = Raise IndexError <-> 2 <= len data < 4)
  /\ (decode_gears data = Ok ("Bad Gear", "Data") <-> len data < 2).
Proof.
  destruct (payload_by_length data)
    as [H | [(b0 & b1 & ->) | [(b0 & b1 & b2 & ->) | (b0 & b1 & b2 & b3 & rest & ->)]]].
  - rewrite (decode_gears_placeholder data H). split; split; try discriminate; try lia; auto.
  - split; split; try discriminate; try reflexivity; cbn; lia.
  - split; split; try discriminate; try reflexivity; cbn; lia.
  - rewrite decode_gears_long.
    pose proof (len_four b0 b1 b2 b3 rest).
    split; split; try discriminate; lia.
Qed.

(** X2: on payloads of four bytes or more the pair returned depends on
    the bytes at offsets 2 and 3 and on nothing else, and it tells them:
    two payloads give the same pair exactly when they have the same two
    gear bytes. *)
Theorem decode_gears_same_pair
  (a0 a1 a2 a3 : byte) (ra : bytearray) (b0 b1 b2 b3 : byte) (rb : bytearray) :
  decode_gears (a0 :: a1 :: a2 :: a3 :: ra) = decode_gears (b0 :: b1 :: b2 :: b3 :: rb)
  <-> a2 = b2 /\ a3 = b3.
Proof.
  rewrite !decode_gears_long. split.
  - remember (1 + byte_val a2) as fa eqn:Efa. remember (1 + byte_val b2) as fb eqn:Efb.
    remember (1 + byte_val a3) as ra' eqn:Era. remember (1 + byte_val b3) as rb' eqn:Erb.
    intros [= Hf Hr].
    apply str_int_inj in Hf. apply str_int_inj in Hr.
    split; apply byte_val_inj; lia.
  - intros [-> ->]. reflexivity.
Qed.

(** X3: the test by which [process_queue] tells a gear reading from a
    status message, [startswith("Front Gear:")], holds of what the
    decoder returns exactly when it decoded a payload of four bytes or
    more, and of none of the status pairs [main] puts on the queue. *)
Theorem gear_reading_test (data : bytearray) (decoded : string * string) :
  decode_gears data = Ok decoded ->
  (is_gear_reading decoded = true <-> 4 <= len data)
  /\ (forall s : status, is_gear_reading (status_message s) = false).
Proof.
  intros H. split; [| intros []; reflexivity].
  destruct (payload_by_length data)
    as [Hs | [(b0 & b1 & ->) | [(b0 & b1 & b2 & ->) | (b0 & b1 & b2 & b3 & rest & ->)]]].
  - rewrite (decode_gears_placeholder data Hs) in H. injection H as <-.
    split; [discriminate | lia].
  - discriminate H.
  - discriminate H.
  - rewrite decode_gears_long in H. injection H as <-.
    pose proof (len_four b0 b1 b2 b3 rest). split; [auto | reflexivity].
Qed.

Lemma gear_reading_test_witness :
  decode_gears [x00; x00; x01; x0b] = Ok ("Front Gear: 2", "Rear Gear : 12")
  /\ (is_gear_reading ("Front Gear: 2", "Rear Gear : 12") = true
      <-> 4 <= len [x00; x00; x01; x0b]).
Proof.
  split; [reflexivity |].
  apply (gear_reading_test [x00; x00; x01; x0b] ("Front Gear: 2", "Rear Gear : 12")).
  reflexivity.
Defined.

(** ** The grade and lock decoder, over sequences of calls *)

Lemma overwrite_twice {A} (new old : option A) :
  overwrite new (overwrite new old) = overwrite new old.
Proof. destruct new; reflexivity. Qed.

Lemma run_notifications_cons (data : bytearray) (ps : list bytearray) (g : Globals) :
  run_notifications (data :: ps) g = run_notifications ps (updated data g).
Proof. cbn. rewrite calc_grade_run. reflexivity. Qed.

Lemma not_grade_payload (data : bytearray) :
  ~ grade_payload data -> carried_grade data = None.
Proof.
  intros H. destruct (carried_grade data) as [v |] eqn:E; [| reflexivity].
  apply carried_grade_Some in E. destruct E as (lo & hi & rest & -> & _).
  exfalso. apply H. exists lo, hi, rest. reflexivity.
Qed.

Lemma not_lock_payload (data : bytearray) :
  ~ lock_payload data -> carried_lock data = None.
Proof.
  intros H. destruct (carried_lock data) as [v |] eqn:E; [| reflexivity].
  apply carried_lock_Some in E. destruct E as (flag & rest & -> & _).
  exfalso. apply H. exists flag, rest. reflexivity.
Qed.

Lemma run_without_grade (qs : list bytearray) (g : Globals) :
  Forall (fun d => ~ grade_payload d) qs ->
  current_grade (run_notifications qs g) = current_grade g.
Proof.
  intros H. revert g. induction H as [| d qs Hd _ IH]; intros g; [reflexivity |].
  rewrite run_notifications_cons, IH. cbn.
  rewrite (not_grade_payload d Hd). reflexivity.
Qed.

Lemma run_without_lock (qs : list bytearray) (g : Globals) :
  Forall (fun d => ~ lock_payload d) qs ->
  current_lock_status (run_notifications qs g) = current_lock_status g.
Proof.
  intros H. revert g. induction H as [| d qs Hd _ IH]; intros g; [reflexivity |].
  rewrite run_notifications_cons, IH. cbn.
  rewrite (not_lock_payload d Hd). reflexivity.
Qed.

(** X4: a payload received twice in a row does the second time what it
    did the first: the same value is returned and the globals stay as
    the first call left them. *)
Theorem calc_grade_idempotent (data : bytearray) (g : Globals) :
  calc_grade data (snd (calc_grade data g)) = calc_grade data g.
Proof.
  rewrite !calc_grade_run. cbn [snd].
  assert (E : updated data (updated data g) = updated data g).
  { unfold updated. cbn [current_grade current_lock_status].
    rewrite !overwrite_twice. reflexivity. }
  rewrite E. reflexivity.
Qed.

(** X5: the grade held after a sequence of notifications is the one of
    the last grade payload in it: whatever came before that payload, and
    whatever the globals were, if no grade payload follows it the grade
    is the one this payload gives from the initial globals. *)
Theorem last_grade_payload_decides
  (ps qs : list bytearray) (lo hi : byte) (rest : bytearray) (g : Globals) :
  Forall (fun d => ~ grade_payload d) qs ->
  current_grade (run_notifications (ps ++ (xfd :: x34 :: lo :: hi :: rest) :: qs) g)
  = current_grade (snd (calc_grade (xfd :: x34 :: lo :: hi :: rest) initial)).
Proof.
  intros H.
  rewrite run_notifications_app, run_notifications_cons, (run_without_grade _ _ H).
  rewrite calc_grade_run. reflexivity.
Qed.

Lemma last_grade_payload_decides_witness :
  Forall (fun d => ~ grade_payload d) [[xfd; x33; x01]; [xfd; x34; x00]]
  /\ current_grade
       (run_notifications
          ([[xfd; x34; x00; xff]] ++ [xfd; x34; x50; x00] :: [[xfd; x33; x01]; [xfd; x34; x00]])
          initial)
     = Some "+0.8%".
Proof.
  assert (H : Forall (fun d => ~ grade_payload d) [[xfd; x33; x01]; [xfd; x34; x00]]).
  { repeat constructor; intros (lo & hi & rest & E); discriminate E. }
  split; [exact H |].
  exact (last_grade_payload_decides [[xfd; x34; x00; xff]] _ x50 x00 [] initial H).
Defined.

(** X6: the lock status held after a sequence of notifications is the
    one of the last lock payload in it: if no lock payload follows it,
    the status is whether its flag byte is 0x01. *)
Theorem last_lock_payload_decides
  (ps qs : list bytearray) (flag : byte) (rest : bytearray) (g : Globals) :
  Forall (fun d => ~ lock_payload d) qs ->
  current_lock_status (run_notifications (ps ++ (xfd :: x33 :: flag :: rest) :: qs) g)
  = Some (byte_val flag =? 0x01).
Proof.
  intros H.
  rewrite run_notifications_app, run_notifications_cons, (run_without_lock _ _ H).
  reflexivity.
Qed.

Lemma last_lock_payload_decides_witness :
  Forall (fun d => ~ lock_payload d) [[xfd; x34; x50; x00]; [xfd; x33]]
  /\ current_lock_status
       (run_notifications
          ([[xfd; x33; x01]] ++ [xfd; x33; x00] :: [[xfd; x34; x50; x00]; [xfd; x33]])
          initial)
     = Some false.
Proof.
  assert (H : Forall (fun d => ~ lock_payload d) [[xfd; x34; x50; x00]; [xfd; x33]]).
  { repeat constructor; intros (flag & rest & E); discriminate E. }
  split; [exact H |].
  exact (last_lock_payload_decides [[xfd; x33; x01]] _ x00 [] initial H).
Defined.

Lemma grade_text_form (lo hi : byte) : grade_form (grade_text (byte_val lo) (byte_val hi)).
Proof.
  unfold grade_text, grade_form.
  destruct (raw16_range lo hi) as (Hr & Hp & Hn).
  destruct (Z.ltb_spec (byte_val hi) 128) as [Hlt | Hge].
  - eexists. split; [| left; reflexivity]. specialize (Hp Hlt). lia.
  - eexists. split; [| right; reflexivity]. specialize (Hn Hge). lia.
Qed.

Lemma updated_grade_formed (data : bytearray) (g : Globals) :
  grade_formed g -> grade_formed (updated data g).
Proof.
  unfold grade_formed, updated. cbn [current_grade].
  destruct (carried_grade data) as [v |] eqn:E; cbn [overwrite]; [intros _ | auto].
  apply carried_grade_Some in E. destruct E as (lo & hi & rest & _ & ->).
  apply grade_text_form.
Qed.

Lemma run_grade_formed (ps : list bytearray) (g : Globals) :
  grade_formed g -> grade_formed (run_notifications ps g).
Proof.
  revert g. induction ps as [| d ps IH]; intros g H; [exact H |].
  rewrite run_notifications_cons. apply IH, updated_grade_formed, H.
Qed.

(** X7: whatever notifications are received, the grade held is unset or
    is "+" or "-", then n / 100.0 printed with one digit after the
    point for a whole number n of hundredths between 0 and 32767, then
    "%": no payload makes the decoder store anything else. *)
Theorem grade_always_formed (ps : list bytearray) :
  match current_grade (run_notifications ps initial) with
  | Some s =>
      exists n, 0 <= n <= 32767
        /\ (s = "+" ++ Float.format_1f (Float.int_truediv n Float.hundred) ++ "%"
            \/ s = "-" ++ Float.format_1f (Float.int_truediv n Float.hundred) ++ "%")
  | None => True
  end.
Proof.
  exact (run_grade_formed ps initial I).
Qed.

(** X8: the two grade bytes are read as the 16-bit number
    256 * data[3] + data[2]. Below 0x8000 it is the number of hundredths
    shown after "+"; from 0x8000 on, the number shown after "-" is one
    less than the magnitude of its two's complement reading, so that
    0xFFFF, which reads -1, is shown as "-0.0%". *)
Theorem grade_numeric_reading (lo hi : byte) (rest : bytearray) (g : Globals) :
  (let raw := 256 * byte_val hi + byte_val lo in
   current_grade (snd (calc_grade (xfd :: x34 :: lo :: hi :: rest) g))
   = Some (if raw <? 0x8000
           then "+" ++ Float.format_1f (Float.int_truediv raw Float.hundred) ++ "%"
           else "-" ++ Float.format_1f
                         (Float.int_truediv (- (raw - 0x10000) - 1) Float.hundred) ++ "%"))
  /\ current_grade (snd (calc_grade [xfd; x34; xff; xff] g)) = Some "-0.0%".
Proof.
  split; [| rewrite calc_grade_run; reflexivity].
  cbv zeta. rewrite calc_grade_run, updated_grade_payload. cbn [snd current_grade].
  unfold grade_text. rewrite raw16_value.
  pose proof (byte_val_range lo) as Hlo. pose proof (byte_val_range hi) as Hhi.
  destruct (Z.ltb_spec (byte_val hi) 128) as [Hlt | Hge];
    destruct (Z.ltb_spec (256 * byte_val hi + byte_val lo) 32768) as [Hr | Hr];
    try lia; [reflexivity |].
  do 5 f_equal. lia.
Qed.

(** ** The handlers and the queues *)

(** X9: the gear handler puts exactly one pair on the queue for a payload
    of fewer than two bytes (the placeholder) or of four or more (two
    gear numbers between 1 and 256); on a payload of two or three bytes
    it raises [IndexError] and puts nothing, the placeholder neither. It
    never touches the grade queue or the globals. *)
Theorem gears_handler_by_length (data : bytearray) (w : World) :
  (len data < 2 ->
   gears_notification_handler data w
   = (Ok tt, {| globals := globals w;
                gears_queue := gears_queue w ++ [("Bad Gear", "Data")];
                grade_queue := grade_queue w |}))
  /\ (2 <= len data < 4 -> gears_notification_handler data w = (Raise IndexError, w))
  /\ (4 <= len data ->
      exists front rear,
        1 <= front <= 256 /\ 1 <= rear <= 256
        /\ gears_notification_handler data w
           = (Ok tt, {| globals := globals w;
                        gears_queue :=
                          gears_queue w
                          ++ [("Front Gear: " ++ str_int front, "Rear Gear : " ++ str_int rear)];
                        grade_queue := grade_queue w |})).
Proof.
  unfold gears_notification_handler.
  destruct (payload_by_length data)
    as [H | [(b0 & b1 & ->) | [(b0 & b1 & b2 & ->) | (b0 & b1 & b2 & b3 & rest & ->)]]].
  - rewrite (decode_gears_placeholder data H).
    repeat split; [lia | lia].
  - repeat split; cbn; lia.
  - repeat split; cbn; lia.
  - rewrite decode_gears_long. pose proof (len_four b0 b1 b2 b3 rest) as L.
    split; [lia |]. split; [lia |]. intros _.
    exists (1 + byte_val b2), (1 + byte_val b3).
    pose proof (byte_val_range b2). pose proof (byte_val_range b3).
    repeat split; lia.
Qed.

Lemma gears_handler_by_length_witness :
  gears_notification_handler [x07] initial_world
  = (Ok tt, {| globals := initial; gears_queue := [("Bad Gear", "Data")]; grade_queue := [] |})
  /\ gears_notification_handler [x00; x00; x01] initial_world
     = (Raise IndexError, initial_world)
  /\ exists front rear,
       1 <= front <= 256 /\ 1 <= rear <= 256
       /\ gears_notification_handler [x00; x00; xff; x00] initial_world
          = (Ok tt, {| globals := initial;
                       gears_queue :=
                         [("Front Gear: " ++ str_int front, "Rear Gear : " ++ str_int rear)];
                       grade_queue := [] |}).
Proof.
  split; [| split].
  - apply (gears_handler_by_length [x07] initial_world). reflexivity.
  - apply (gears_handler_by_length [x00; x00; x01] initial_world).
    split; [discriminate | reflexivity].
  - apply (gears_handler_by_length [x00; x00; xff; x00] initial_world). discriminate.
Defined.

Lemma grade_form_nonempty (s : string) : grade_form s -> s <> "".
Proof. intros (n & _ & [-> | ->]); discriminate. Qed.

Lemma composite_label_nonempty (g : Globals) (l : string) :
  grade_formed g -> composite_label g = Some l -> l <> "".
Proof.
  unfold grade_formed, composite_label.
  destruct (current_grade g) as [gr |], (current_lock_status g) as [b |].
  - intros _ [= <-]. destruct gr; discriminate.
  - intros H [= <-]. apply grade_form_nonempty, H.
  - intros _ [= <-]. destruct b; discriminate.
  - discriminate.
Qed.

(** One grade notification, from globals whose grade has the form the
    decoder stores. *)
Lemma grade_handler_step (data : bytearray) (w : World) :
  grade_formed (globals w) ->
  grade_notification_handler data w
  = (Ok tt,
     {| globals := updated data (globals w);
        gears_queue := gears_queue w;
        grade_queue :=
          match composite_label (updated data (globals w)) with
          | Some l => grade_queue w ++ [l]
          | None => grade_queue w
          end |}).
Proof.
  intros H. unfold grade_notification_handler. rewrite calc_grade_run.
  destruct (composite_label (updated data (globals w))) as [l |] eqn:E; [| reflexivity].
  pose proof (composite_label_nonempty _ l (updated_grade_formed data _ H) E) as N.
  destruct (String.eqb_spec l ""); [contradiction | reflexivity].
Qed.

Lemma composite_label_stays (data : bytearray) (g : Globals) :
  composite_label g <> None -> composite_label (updated data g) <> None.
Proof.
  unfold composite_label, updated. cbn [current_grade current_lock_status].
  destruct (current_grade g), (current_lock_status g),
    (carried_grade data), (carried_lock data); cbn; congruence.
Qed.

Lemma handle_grades_app (ps qs : list bytearray) (w : World) :
  handle_grades (ps ++ qs) w = handle_grades qs (handle_grades ps w).
Proof.
  revert w. induction ps as [| d ps IH]; intros w; cbn; [reflexivity | apply IH].
Qed.

(** What a run of grade notifications keeps true from the initial
    state. *)
Lemma handle_grades_invariant (ps : list bytearray) (w : World) :
  grade_formed (globals w) ->
  (composite_label (globals w) = None -> grade_queue w = []) ->
  let w' := handle_grades ps w in
  globals w' = run_notifications ps (globals w)
  /\ gears_queue w' = gears_queue w
  /\ grade_formed (globals w')
  /\ (composite_label (globals w') = None -> grade_queue w' = []).
Proof.
  revert w. induction ps as [| d ps IH]; intros w F Q; cbn zeta.
  - cbn. auto.
  - cbn [handle_grades]. rewrite (grade_handler_step d w F). cbn [snd].
    rewrite run_notifications_cons.
    match goal with |- context [handle_grades ps ?x] => specialize (IH x) end.
    cbn [globals gears_queue grade_queue] in IH. apply IH.
    + apply updated_grade_formed, F.
    + intros E. rewrite E. apply Q.
      destruct (composite_label (globals w)) eqn:E'; [| reflexivity].
      exfalso. apply (composite_label_stays d (globals w)); [congruence | exact E].
Qed.

(** X10: over any run of grade notifications from the initial state,
    nothing is put on the grade queue while neither field is known, and
    from then on every notification, whatever its payload, puts the
    label of the globals it leaves; that label is never empty, so the
    handler's truth test only skips [None]. *)
Theorem grade_handler_queue (ps : list bytearray) (data : bytearray) :
  let w := handle_grades (ps ++ [data]) initial_world in
  globals w = run_notifications (ps ++ [data]) initial
  /\ match composite_label (globals w) with
     | Some l =>
         l <> ""
         /\ grade_queue w = (grade_queue (handle_grades ps initial_world) ++ [l])%list
     | None => grade_queue w = []
     end.
Proof.
  cbn zeta. rewrite handle_grades_app, run_notifications_app.
  destruct (handle_grades_invariant ps initial_world I (fun _ => eq_refl))
    as (G & _ & F & Q).
  cbn [globals initial_world] in G. cbn [handle_grades run_notifications].
  rewrite (grade_handler_step data _ F). cbn [snd globals grade_queue].
  rewrite calc_grade_run. cbn [snd]. rewrite <- G. split; [reflexivity |].
  destruct (composite_label (updated data (globals (handle_grades ps initial_world))))
    as [l |] eqn:E.
  - split; [| reflexivity].
    apply (composite_label_nonempty _ l (updated_grade_formed data _ F) E).
  - apply Q. destruct (composite_label (globals (handle_grades ps initial_world))) eqn:E';
      [| reflexivity].
    exfalso. apply (composite_label_stays data (globals (handle_grades ps initial_world)));
      [congruence | exact E].
Qed.


Lemma drain_grade_queue_empties (queue : list string) (text : string) :
  fst (drain_grade_queue queue text) = [].
Proof.
  revert text. induction queue as [| x queue IH]; intros text; cbn; [reflexivity | apply IH].
Qed.




(** ** The configuration file *)

Section ConfigFacts.

Import Config.










(** X15: a configuration file that is there and cannot be read as a JSON
    object is never repaired: both saves leave the file as it is and
    print one error, and both loads return the defaults, (100, 100, 1.0)
    and (None, None). *)
Theorem broken_config_stays_broken (x y : Z) (env : Env) :
  broken (config_file env) ->
  config_file (save_window_position x y env) = config_file env
  /\ config_file (save_dialog_position x y env) = config_file env
  /\ List.length (printed (save_window_position x y env)) = S (List.length (printed env))
  /\ List.length (printed (save_dialog_position x y env)) = S (List.length (printed env))
  /\ fst (load_config env) = (JInt 100, JInt 100, one)
  /\ fst (load_dialog_position env) = (JNull, JNull).
Proof.
  intros [[e E] | (doc & E & N)];
    unfold save_window_position, save_dialog_position, load_config, load_dialog_position;
    rewrite E.
  - cbn. rewrite !length_app. cbn. repeat split; auto; lia.
  - destruct doc; try (exfalso; eapply N; reflexivity);
      cbn; rewrite !length_app; cbn; repeat split; auto; lia.
Qed.

Lemma broken_config_stays_broken_witness :
  broken (Holds (JList []))
  /\ config_file (save_window_position 640 400 (start (Holds (JList [])))) = Holds (JList []).
Proof.
  assert (B : broken (Holds (JList []))).
  { right. exists (JList []). split; [reflexivity | discriminate]. }
  split; [exact B |].
  exact (proj1 (broken_config_stays_broken 640 400 (start (Holds (JList []))) B)).
Defined.



End ConfigFacts.

(** ** The choice of the device *)

Lemma prefix_spec (p s : string) :
  String.prefix p s = true <-> exists rest, s = p ++ rest.
Proof.
  revert s. induction p as [| a p IH]; intros s.
  - destruct s; cbn; split; eauto.
  - destruct s as [| b s]; cbn [String.prefix append].
    + split; [discriminate | intros [rest E]; discriminate E].
    + destruct (ascii_dec a b) as [-> | N].
      * rewrite IH. split; intros [rest E]; exists rest; [rewrite E; reflexivity |].
        injection E as E. exact E.
      * split; [discriminate | intros [rest E]]. injection E as E1 E2. congruence.
Qed.

Lemma contains_spec (needle hay : string) :
  contains needle hay = true <-> exists before after, hay = before ++ needle ++ after.
Proof.
  induction hay as [| c hay IH]; cbn [contains].
  - destruct (String.prefix needle "") eqn:P.
    + apply prefix_spec in P. destruct P as [rest E].
      split; [intros _; exists "", rest; exact E | reflexivity].
    + split; [discriminate |]. intros (before & after & E).
      assert (T : String.prefix needle "" = true).
      { apply prefix_spec. destruct before; [| discriminate E].
        exists after. exact E. }
      congruence.
  - destruct (String.prefix needle (String c hay)) eqn:P.
    + apply prefix_spec in P. destruct P as [rest E].
      split; [intros _; exists "", rest; exact E | reflexivity].
    + rewrite IH. split.
      * intros (before & after & ->). exists (String c before), after. reflexivity.
      * intros (before & after & E). destruct before as [| b before].
        -- assert (T : String.prefix needle (String c hay) = true)
             by (apply prefix_spec; exists after; exact E).
           congruence.
        -- injection E as _ E. exists before, after. exact E.
Qed.

Lemma is_kickr_spec (d : BLEDevice) : is_kickr d = true <-> named_kickr d.
Proof.
  unfold is_kickr, named_kickr. destruct (name d) as [n |].
  - destruct (String.eqb_spec n "") as [-> | N].
    + split; [discriminate |]. intros (before & after & [= E]).
      destruct before; discriminate E.
    + rewrite contains_spec. split; intros (before & after & E); exists before, after; congruence.
  - split; [discriminate | intros (before & after & E); discriminate E].
Qed.

(** X17: the scan picks the first device in the list whose name has
    "KICKR" in it, at any place in the name and in these capitals;
    devices without a name are passed over, and no device is picked
    exactly when no name in the list has "KICKR" in it. *)
Theorem find_kicker_first_named (devices : list BLEDevice) :
  match find_kicker devices with
  | Some d =>
      exists earlier later,
        devices = (earlier ++ d :: later)%list
        /\ named_kickr d
        /\ Forall (fun d' => ~ named_kickr d') earlier
  | None => Forall (fun d => ~ named_kickr d) devices
  end.
Proof.
  induction devices as [| d devices IH]; cbn [find_kicker].
  - constructor.
  - destruct (is_kickr d) eqn:K.
    + exists [], devices. split; [reflexivity |]. split; [| constructor].
      apply is_kickr_spec, K.
    + assert (N : ~ named_kickr d).
      { intros H. apply is_kickr_spec in H. congruence. }
      destruct (find_kicker devices) as [k |].
      * destruct IH as (earlier & later & -> & Hk & He).
        exists (d :: earlier), later. split; [reflexivity |]. split; [exact Hk |].
        constructor; assumption.
      * constructor; assumption.
Qed.

(** ** What the grade decoder reads *)

(** X18: the grade decoder reads no byte past offset 3: a payload does
    what its first four bytes alone do, to the globals and in the value
    returned. *)
Theorem calc_grade_first_four_bytes
  (b0 b1 b2 b3 : byte) (rest : bytearray) (g : Globals) :
  calc_grade (b0 :: b1 :: b2 :: b3 :: rest) g = calc_grade [b0; b1; b2; b3] g.
Proof.
  rewrite !calc_grade_run. reflexivity.
Qed.
